(** * The books router of [routes/books.js]

    A shallow embedding of the five request handlers of the Express router
    in [src/routes/books.js], together with the JavaScript built-ins and
    the Express response helpers they call, followed by the properties of
    the handlers.

    Conventions
    - A JavaScript string is the list of its UTF-16 code units ([list N]);
      [units] turns a literal into that list.
    - A JavaScript Number that holds an id is modelled by the integer it
      denotes ([Z]); [NaN] is [None].  The ids the router itself creates
      are [books.length + 1], far inside the range in which Numbers are
      exact (up to 2^53 in absolute value, [exact_number]).  [parseInt]
      gives the integer a numeral denotes; JavaScript returns the Number
      nearest to it, which is that integer inside the exact range only.
      A statement that depends on the value read from a numeral, and not
      only on that value being the id of some Book, carries the bound
      [exact_number] as a hypothesis.
    - Objects of the store are compared by their contents; the router
      never holds two references to one object, and the one comparison it
      makes ([indexOf] of the object [find] returned) has the same result
      either way.
    - The array [books] exported by [../utils/data] is the store: a
      [list Book.t] threaded through every handler.
    - [new Date()] reads the clock: the time value is an input of [post]. *)

From stdpp Require Import gmap strings list pretty.

Local Open Scope Z_scope.

(** ** JSON values, as [body-parser] leaves them in [req.body] *)

#[local] Unset Elimination Schemes.
Inductive json :=
  | JNull
  | JBool (b : bool)
  | JNum (n : Z)
  | JStr (s : string)
  | JArr (l : list json)
  | JObj (l : list (string * json)).
#[local] Set Elimination Schemes.

Fixpoint json_eq_dec (a b : json) {struct a} : {a = b} + {a ≠ b}.
Proof.
  rename json_eq_dec into rec.
  destruct a, b;
    try (right; discriminate);
    try (left; reflexivity).
  - destruct (bool_dec b0 b) as [->|N]; [left|right]; congruence.
  - destruct (Z.eq_dec n n0) as [->|N]; [left|right]; congruence.
  - destruct (String.string_dec s s0) as [->|N]; [left|right]; congruence.
  - destruct (List.list_eq_dec rec l l0) as [->|N]; [left|right]; congruence.
  - assert (pair_dec : ∀ x y : string * json, {x = y} + {x ≠ y}).
    { intros [s1 j1] [s2 j2].
      destruct (String.string_dec s1 s2) as [->|N]; [|right; congruence].
      destruct (rec j1 j2) as [->|N]; [left|right]; congruence. }
    destruct (List.list_eq_dec pair_dec l l0) as [->|N];
      [left|right]; congruence.
Defined.

#[export] Instance json_eq_decision : EqDecision json := json_eq_dec.

(** ** The [Book] objects held in the store

    A field read from a request body may be [undefined] ([None]); an
    object created by [post] without a title keeps it [undefined]. *)

Module Book.
Record t := mk {
  id : Z;
  title : option json;
  author : option json;
  finished : option json;
  createdAt : Z
}.

#[global] Instance eq_decision : EqDecision t.
Proof. solve_decision. Defined.
End Book.

(** ** JavaScript built-ins used by the router *)

Module Js.

Definition units (s : string) : list N :=
  List.map Ascii.N_of_ascii (String.list_ascii_of_string s).

(** [WhiteSpace] and [LineTerminator] code units, which [parseInt]
    skips at the start of its argument. *)
Definition white_space : list N :=
  [ 9; 10; 11; 12; 13; 32; 160; 5760;
    8192; 8193; 8194; 8195; 8196; 8197; 8198; 8199; 8200; 8201; 8202;
    8232; 8233; 8239; 8287; 12288; 65279 ]%N.

Definition is_white (c : N) : bool := bool_decide (c ∈ white_space).

Definition is_decimal (c : N) : bool := ((48 <=? c) && (c <=? 57))%N.

(** Value of a code unit as a digit in some radix up to 36. *)
Definition digit_val (c : N) : option Z :=
  if ((48 <=? c) && (c <=? 57))%N then Some (Z.of_N c - 48)
  else if ((97 <=? c) && (c <=? 122))%N then Some (Z.of_N c - 97 + 10)
  else if ((65 <=? c) && (c <=? 90))%N then Some (Z.of_N c - 65 + 10)
  else None.

Definition radix_digit (R : Z) (c : N) : option Z :=
  match digit_val c with
  | Some d => if d <? R then Some d else None
  | None => None
  end.

Fixpoint trim_start (s : list N) : list N :=
  match s with
  | c :: s' => if is_white c then trim_start s' else s
  | [] => []
  end.

(** The longest prefix of radix-[R] digits, as digit values. *)
Fixpoint take_digits (R : Z) (s : list N) : list Z :=
  match s with
  | c :: s' =>
      match radix_digit R c with
      | Some d => d :: take_digits R s'
      | None => []
      end
  | [] => []
  end.

Definition math_int (R : Z) (ds : list Z) : Z :=
  fold_left (λ acc d, acc * R + d) ds 0.

Definition strip_sign (s : list N) : Z * list N :=
  match s with
  | c :: s' =>
      if (c =? 45)%N then (-1, s')
      else if (c =? 43)%N then (1, s')
      else (1, s)
  | [] => (1, [])
  end.

Definition strip_prefix (s : list N) : Z * list N :=
  match s with
  | c0 :: c1 :: s' =>
      if ((c0 =? 48) && ((c1 =? 120) || (c1 =? 88)))%N then (16, s')
      else (10, s)
  | _ => (10, s)
  end.

(** [parseInt(string)] with the radix left out: leading white space is
    skipped, one sign is read, a [0x]/[0X] prefix switches to radix 16,
    and the longest digit prefix is the result; no digit gives [NaN].
    The result is the mathematical integer [sign * mathInt] of the
    language definition; the Number JavaScript returns for it is the
    same integer when [exact_number] holds, and the nearest
    representable Number otherwise. *)
Definition parseInt (s : list N) : option Z :=
  let '(sign, s1) := strip_sign (trim_start s) in
  let '(R, s2) := strip_prefix s1 in
  match take_digits R s2 with
  | [] => None
  | ds => Some (sign * math_int R ds)
  end.

(** The integers every one of which is a Number of its own: up to 2^53
    in absolute value no rounding takes place. *)
Definition exact_number (n : Z) : bool := Z.abs n <=? 2 ^ 53.

(** What [parseInt] looks at once white space and sign are gone. *)
Definition after_sign (s : list N) : list N :=
  (strip_sign (trim_start s)).2.

Definition begins_decimal (s : list N) : bool :=
  match s with
  | c :: _ => is_decimal c
  | [] => false
  end.

(** The string starts with [0x] or [0X]. *)
Definition starts_0x (s : list N) : bool :=
  match s with
  | c0 :: c1 :: _ => ((c0 =? 48) && ((c1 =? 120) || (c1 =? 88)))%N
  | _ => false
  end.

(** The integer a string of decimal digits denotes. *)
Definition decimal_value (ds : list N) : Z :=
  math_int 10 (List.map (λ c, Z.of_N c - 48) ds).

(** The decimal numeral of a natural number, as a client writes an id
    into the path: built least significant digit first by counting. *)
Fixpoint incr_digits (ds : list N) : list N :=
  match ds with
  | [] => [49%N]
  | d :: ds' => if (d =? 57)%N then 48%N :: incr_digits ds'
                else (d + 1)%N :: ds'
  end.

Fixpoint digits_le (n : nat) : list N :=
  match n with
  | O => []
  | S n' => incr_digits (digits_le n')
  end.

Definition numeral (n : nat) : list N :=
  match n with
  | O => [48%N]
  | S _ => rev (digits_le n)
  end.

(** [Array.prototype.find]: the first element satisfying the callback,
    or [undefined]. *)
Fixpoint find {A} (p : A → bool) (l : list A) : option A :=
  match l with
  | [] => None
  | x :: l' => if p x then Some x else find p l'
  end.

Fixpoint index_from {A} `{EqDecision A} (x : A) (l : list A) (k : Z) : Z :=
  match l with
  | [] => -1
  | y :: l' => if decide (y = x) then k else index_from x l' (k + 1)
  end.

(** [Array.prototype.indexOf]: the first index holding the element, or
    [-1].  Elements are compared by their contents; for the one use in
    the router (the element just returned by [find]) this is the index
    strict equality on object references gives, see [indexOf_find]. *)
Definition indexOf {A} `{EqDecision A} (x : A) (l : list A) : Z :=
  index_from x l 0.

(** [Array.prototype.splice(start, deleteCount, ...items)]: the array
    after the call (the removed elements it returns are not used). *)
Definition splice {A} (start deleteCount : Z) (items : list A)
    (l : list A) : list A :=
  let len := Z.of_nat (length l) in
  let actualStart :=
    if start <? 0 then Z.max (len + start) 0 else Z.min start len in
  let actualDeleteCount :=
    Z.min (Z.max deleteCount 0) (len - actualStart) in
  take (Z.to_nat actualStart) l ++ items
    ++ drop (Z.to_nat (actualStart + actualDeleteCount)) l.

(** [Array.prototype.push] of one element: the array after the call. *)
Definition push {A} (x : A) (l : list A) : list A := l ++ [x].

End Js.

(** ** Express responses *)

Module Express.

Inductive payload :=
  | Empty
  | Text (s : string)
  | Json (b : Book.t)
  | JsonArray (l : list Book.t).

Record response := mkResponse { status : Z; body : payload }.

(** An excerpt of the status messages of the [statuses] package, with
    the two codes this router sends, 204 and 404; a code outside the
    table is sent as its decimal rendering. *)
Definition status_message (code : Z) : string :=
  if code =? 200 then "OK"
  else if code =? 201 then "Created"
  else if code =? 204 then "No Content"
  else if code =? 304 then "Not Modified"
  else if code =? 400 then "Bad Request"
  else if code =? 404 then "Not Found"
  else if code =? 500 then "Internal Server Error"
  else pretty code.

(** [res.send(text)]: a 204 or 304 response is stripped of its body. *)
Definition send (code : Z) (chunk : string) : response :=
  if (code =? 204) || (code =? 304)
  then mkResponse code Empty
  else mkResponse code (Text chunk).

(** [res.sendStatus(code)]: sets the status and sends its message as
    the text of the response. *)
Definition sendStatus (code : Z) : response :=
  send code (status_message code).

(** [res.status(code).json(book)] *)
Definition json_book (code : Z) (b : Book.t) : response :=
  mkResponse code (Json b).

(** [res.status(code).json(books)] *)
Definition json_books (code : Z) (l : list Book.t) : response :=
  mkResponse code (JsonArray l).

End Express.

(** ** The router of [routes/books.js]

    Every handler takes the store and returns the response together with
    the store it leaves behind.  [req.body], after [body-parser], is an
    object read by key: a [gmap string json], in which a missing key
    reads as [undefined]. *)

Module Router.
Import Js Express.

Abbreviation store := (list Book.t).

(** The callback [(book) => book.id === parseInt(req.params.id)]. *)
Definition by_id (params_id : list N) (book : Book.t) : bool :=
  match parseInt params_id with
  | Some n => bool_decide (Book.id book = n)
  | None => false
  end.

(** [router.get('/')] *)
Definition get_all (books : store) : response * store :=
  (json_books 200 books, books).

(** [router.get('/:id')] *)
Definition get_one (params_id : list N) (books : store)
    : response * store :=
  match find (by_id params_id) books with
  | Some book => (json_book 200 book, books)
  | None => (sendStatus 404, books)
  end.

(** [router.post('/')]; [now] is the time value of [new Date()]. *)
Definition post (body : gmap string json) (now : Z) (books : store)
    : response * store :=
  let title := body !! "title" in
  let author := body !! "author" in
  let finished := body !! "finished" in
  let book :=
    Book.mk (Z.of_nat (length books) + 1)
            title
            author
            (match finished with
             | Some v => Some v
             | None => Some (JBool false)
             end)
            now in
  (json_book 201 book, push book books).

(** [router.put('/:id')] *)
Definition put (params_id : list N) (body : gmap string json)
    (books : store) : response * store :=
  match find (by_id params_id) books with
  | Some book =>
      let title := body !! "title" in
      let author := body !! "author" in
      let finished := body !! "finished" in
      let updated :=
        Book.mk (Book.id book)
                (match title with
                 | Some v => Some v
                 | None => Book.title book
                 end)
                (match author with
                 | Some v => Some v
                 | None => Book.author book
                 end)
                (match finished with
                 | Some v => Some v
                 | None => Book.finished book
                 end)
                (Book.createdAt book) in
      (sendStatus 204, splice (indexOf book books) 1 [updated] books)
  | None => (sendStatus 404, books)
  end.

(** The object literal [updated] of [router.put], as a function of the
    body and of the book found. *)
Definition updated (body : gmap string json) (book : Book.t) : Book.t :=
  Book.mk (Book.id book)
          (match body !! "title" with
           | Some v => Some v | None => Book.title book end)
          (match body !! "author" with
           | Some v => Some v | None => Book.author book end)
          (match body !! "finished" with
           | Some v => Some v | None => Book.finished book end)
          (Book.createdAt book).

(** [router.delete('/:id')] *)
Definition delete_one (params_id : list N) (books : store)
    : response * store :=
  match find (by_id params_id) books with
  | Some book =>
      let books' := splice (indexOf book books) 1 [] books in
      (sendStatus 204, books')
  | None => (sendStatus 404, books)
  end.

(** Requests the router serves, and its dispatch on method and path. *)
Inductive request :=
  | GET_all
  | GET (params_id : list N)
  | POST (body : gmap string json) (now : Z)
  | PUT (params_id : list N) (body : gmap string json)
  | DELETE (params_id : list N).

Definition handle (r : request) (books : store) : response * store :=
  match r with
  | GET_all => get_all books
  | GET p => get_one p books
  | POST b now => post b now books
  | PUT p b => put p b books
  | DELETE p => delete_one p books
  end.

(** The store after a sequence of requests, served one after another. *)
Definition serve (rs : list request) (books : store) : store :=
  fold_left (λ s r, (handle r s).2) rs books.

(** Bodies for concrete requests. *)
Definition body_of (title author : string) : gmap string json :=
  <["title" := JStr title]> (<["author" := JStr author]> ∅).

End Router.

Import Js Express Router.

(** How many books of the store carry the id [n]. *)
Definition count_id (n : Z) (books : store) : nat :=
  length (filter (λ b, Book.id b = n) books).

(** ** Predicates on requests and stores, for the invariants *)

Definition is_DELETE (r : request) : bool :=
  match r with
  | DELETE _ => true
  | _ => false
  end.

(** The ids run 1, 2, ..., length in collection order. *)
Definition sequential_ids (books : store) : Prop :=
  Book.id <$> books = seqZ 1 (Z.of_nat (length books)).

(** Every Book has an id at least its position, counted from 1. *)
Definition ids_above_position (books : store) : Prop :=
  ∀ (i : nat) (b : Book.t), books !! i = Some b → Z.of_nat i + 1 ≤ Book.id b.

(** No Book has an undefined [finished]. *)
Definition finished_defined (books : store) : Prop :=
  Forall (λ b, is_Some (Book.finished b)) books.

(** The 404 of [res.sendStatus(404)]. *)
Definition not_found : response := mkResponse 404 (Text "Not Found").

(** ** Concrete books, bodies and stores used in the examples *)

Module Sample.

Definition body_X : gmap string json := body_of "X" "Y".
Definition body_Z : gmap string json := body_of "Z" "W".

Definition book_X (i : Z) : Book.t :=
  Book.mk i (Some (JStr "X")) (Some (JStr "Y")) (Some (JBool false)) 1000.
Definition book_Z (i : Z) : Book.t :=
  Book.mk i (Some (JStr "Z")) (Some (JStr "W")) (Some (JBool false)) 2000.

(** Two posts to an empty store, then the first book deleted. *)
Definition two_posts : list request :=
  [POST body_X 1000; POST body_X 1000].
Definition after_delete : store :=
  serve (two_posts ++ [DELETE (units "1")]) [].

(** A body that also carries the fields the server assigns. *)
Definition body_forged : gmap string json :=
  <["id" := JNum 99]> (<["createdAt" := JStr "1970-01-01"]>
    (<["title" := JStr "T"]> ∅)).

End Sample.

(** ** Facts about the built-ins *)

Section array_facts.
Context {A : Type} `{EqDecision A}.
Implicit Types (p : A → bool) (l : list A).

Lemma find_None p l :
  find p l = None ↔ Forall (λ x, p x = false) l.
Proof.
  induction l as [|x l IH]; simpl.
  - split; [constructor | done].
  - destruct (p x) eqn:Hx.
    + split; [done | inversion 1; congruence].
    + rewrite IH. split; [by constructor | by inversion 1].
Qed.

Lemma find_first p l1 b l2 :
  Forall (λ x, p x = false) l1 → p b = true →
  find p (l1 ++ b :: l2) = Some b.
Proof.
  induction 1 as [|x l1 Hx _ IH]; simpl; intros Hb.
  - by rewrite Hb.
  - rewrite Hx. auto.
Qed.

Lemma find_Some_split p l b :
  find p l = Some b →
  ∃ l1 l2, l = l1 ++ b :: l2 ∧ Forall (λ x, p x = false) l1 ∧ p b = true.
Proof.
  induction l as [|x l IH]; simpl; [done|].
  destruct (p x) eqn:Hx.
  - intros [= ->]. by exists [], l.
  - intros (l1 & l2 & -> & Hl1 & Hb)%IH.
    exists (x :: l1), l2. split_and!; [done | by constructor | done].
Qed.

Lemma index_from_first (b : A) l1 l2 k :
  Forall (λ x, x ≠ b) l1 →
  index_from b (l1 ++ b :: l2) k = k + Z.of_nat (length l1).
Proof.
  intros Hl1. revert k.
  induction Hl1 as [|x l1 Hx _ IH]; intros k; simpl.
  - rewrite decide_True by done. lia.
  - rewrite decide_False by done. rewrite IH. lia.
Qed.

(** The index [indexOf] gives for the element [find] returned is the
    position at which [find] stopped: no earlier element satisfies the
    callback, so none of them is the element found, whether elements
    are told apart by reference or by contents. *)
Lemma indexOf_find p l1 b l2 :
  Forall (λ x, p x = false) l1 → p b = true →
  indexOf b (l1 ++ b :: l2) = Z.of_nat (length l1).
Proof.
  intros Hl1 Hb. unfold indexOf. rewrite index_from_first; [lia|].
  eapply Forall_impl; [exact Hl1|]. simpl. intros x Hx ->. congruence.
Qed.

Lemma splice_one l1 (b : A) l2 items :
  splice (Z.of_nat (length l1)) 1 items (l1 ++ b :: l2) = l1 ++ items ++ l2.
Proof.
  unfold splice. rewrite length_app. simpl.
  destruct (Z.ltb_spec (Z.of_nat (length l1)) 0) as [?|_]; [lia|].
  rewrite Z.min_l by lia.
  replace (Z.max 1 0) with 1 by lia.
  rewrite Z.min_l by lia.
  rewrite Nat2Z.id.
  replace (Z.to_nat (Z.of_nat (length l1) + 1)) with (length l1 + 1)%nat
    by lia.
  rewrite take_app_length.
  replace (l1 ++ b :: l2) with ((l1 ++ [b]) ++ l2) by by rewrite <- app_assoc.
  rewrite drop_app_length'; [done|]. rewrite length_app. simpl. lia.
Qed.

End array_facts.

(** ** Facts about the handlers *)

Section handler_facts.
Implicit Types (books l : store) (b : Book.t) (p : list N) (n : Z).

Lemma by_id_parsed p n b :
  parseInt p = Some n → by_id p b = bool_decide (Book.id b = n).
Proof. unfold by_id. by intros ->. Qed.

(** A callback that depends on the path only through [parseInt]. *)
Lemma by_id_ext p q : parseInt p = parseInt q → by_id p = by_id q.
Proof. unfold by_id. by intros ->. Qed.

Lemma absent_no_match p books :
  (∀ n, parseInt p = Some n → ∀ b, b ∈ books → Book.id b ≠ n) →
  find (by_id p) books = None.
Proof.
  intros Habs. apply find_None, Forall_forall. intros b Hb.
  unfold by_id. destruct (parseInt p) as [n|] eqn:Hp; [|done].
  apply bool_decide_eq_false. by eapply Habs.
Qed.

(** A store holding a book with id [n] splits at the first such book. *)
Lemma present_split n books :
  (∃ b, b ∈ books ∧ Book.id b = n) →
  ∃ l1 b l2, books = l1 ++ b :: l2
    ∧ Forall (λ x, Book.id x ≠ n) l1 ∧ Book.id b = n.
Proof.
  induction books as [|x books IH]; intros (b & Hb & Hid).
  - by apply elem_of_nil in Hb.
  - destruct (decide (Book.id x = n)) as [Hx|Hx].
    + by exists [], x, books.
    + apply elem_of_cons in Hb as [->|Hb]; [done|].
      destruct IH as (l1 & b' & l2 & -> & Hl1 & Hb'); [by eauto|].
      exists (x :: l1), b', l2. split_and!; [done | by constructor | done].
Qed.

Lemma first_match p n l1 b l2 :
  parseInt p = Some n →
  Forall (λ x, Book.id x ≠ n) l1 → Book.id b = n →
  Forall (λ x, by_id p x = false) l1 ∧ by_id p b = true.
Proof.
  intros Hp Hl1 Hb. split.
  - eapply Forall_impl; [exact Hl1|]. simpl. intros x Hx.
    rewrite (by_id_parsed _ _ _ Hp). by apply bool_decide_eq_false.
  - rewrite (by_id_parsed _ _ _ Hp). by apply bool_decide_eq_true.
Qed.

Lemma get_one_first p n l1 b l2 :
  parseInt p = Some n →
  Forall (λ x, Book.id x ≠ n) l1 → Book.id b = n →
  get_one p (l1 ++ b :: l2) = (json_book 200 b, l1 ++ b :: l2).
Proof.
  intros Hp Hl1 Hb.
  destruct (first_match _ _ _ _ l2 Hp Hl1 Hb) as [H1 H2].
  unfold get_one. by rewrite (find_first _ _ _ _ H1 H2).
Qed.

Lemma put_first p n body l1 b l2 :
  parseInt p = Some n →
  Forall (λ x, Book.id x ≠ n) l1 → Book.id b = n →
  put p body (l1 ++ b :: l2) = (sendStatus 204, l1 ++ updated body b :: l2).
Proof.
  intros Hp Hl1 Hb.
  destruct (first_match _ _ _ _ l2 Hp Hl1 Hb) as [H1 H2].
  unfold put. rewrite (find_first _ _ _ _ H1 H2).
  rewrite (indexOf_find _ _ _ _ H1 H2). by rewrite splice_one.
Qed.

Lemma delete_one_first p n l1 b l2 :
  parseInt p = Some n →
  Forall (λ x, Book.id x ≠ n) l1 → Book.id b = n →
  delete_one p (l1 ++ b :: l2) = (sendStatus 204, l1 ++ l2).
Proof.
  intros Hp Hl1 Hb.
  destruct (first_match _ _ _ _ l2 Hp Hl1 Hb) as [H1 H2].
  unfold delete_one. rewrite (find_first _ _ _ _ H1 H2).
  rewrite (indexOf_find _ _ _ _ H1 H2). by rewrite splice_one.
Qed.

Lemma count_id_cons n b l :
  count_id n (b :: l)
  = ((if decide (Book.id b = n) then 1 else 0) + count_id n l)%nat.
Proof.
  unfold count_id. rewrite filter_cons. by destruct (decide _).
Qed.

Lemma count_id_split n l1 b l2 :
  Book.id b = n →
  count_id n (l1 ++ b :: l2) = S (count_id n (l1 ++ l2)).
Proof.
  intros Hb. induction l1 as [|x l1 IH]; simpl.
  - rewrite count_id_cons. by rewrite decide_True.
  - rewrite !count_id_cons, IH. lia.
Qed.

Lemma count_id_zero p n l :
  parseInt p = Some n →
  count_id n l = 0%nat ↔ find (by_id p) l = None.
Proof.
  intros Hp. induction l as [|x l IH]; [done|].
  rewrite count_id_cons. simpl. rewrite (by_id_parsed _ _ _ Hp).
  destruct (decide (Book.id x = n)) as [Hx|Hx].
  - rewrite bool_decide_eq_true_2 by done. split; [lia | done].
  - by rewrite bool_decide_eq_false_2.
Qed.

End handler_facts.

(** ** Facts about [parseInt] *)

Section parseInt_facts.
Implicit Types (c : N) (s ds rest : list N).

Lemma decimal_not_white c : is_decimal c = true → is_white c = false.
Proof.
  intros Hc. apply bool_decide_eq_false. unfold white_space. intros Hin.
  repeat (apply elem_of_cons in Hin as [->|Hin]; [discriminate Hc|]).
  by apply elem_of_nil in Hin.
Qed.

Lemma decimal_not_sign c :
  is_decimal c = true → (c =? 45)%N = false ∧ (c =? 43)%N = false.
Proof.
  unfold is_decimal. intros [H1 H2]%andb_prop.
  apply N.leb_le in H1. split; apply N.eqb_neq; lia.
Qed.

Lemma radix_digit_decimal c :
  is_decimal c = true → radix_digit 10 c = Some (Z.of_N c - 48).
Proof.
  intros Hc. unfold radix_digit, digit_val. unfold is_decimal in Hc.
  rewrite Hc. apply andb_prop in Hc as [H1 H2].
  apply N.leb_le in H1, H2.
  destruct (Z.ltb_spec (Z.of_N c - 48) 10); [done | lia].
Qed.

Lemma radix_digit_not_decimal c :
  is_decimal c = false → radix_digit 10 c = None.
Proof.
  intros Hc. unfold radix_digit, digit_val. unfold is_decimal in Hc.
  rewrite Hc.
  destruct ((97 <=? c) && (c <=? 122))%N eqn:Hlow.
  { apply andb_prop in Hlow as [H1 _]. apply N.leb_le in H1.
    destruct (Z.ltb_spec (Z.of_N c - 97 + 10) 10); [lia | done]. }
  destruct ((65 <=? c) && (c <=? 90))%N eqn:Hup; [|done].
  apply andb_prop in Hup as [H1 _]. apply N.leb_le in H1.
  destruct (Z.ltb_spec (Z.of_N c - 65 + 10) 10); [lia | done].
Qed.

Lemma take_digits_decimal ds rest :
  forallb is_decimal ds = true → begins_decimal rest = false →
  take_digits 10 (ds ++ rest) = List.map (λ c, Z.of_N c - 48) ds.
Proof.
  intros Hds Hrest.
  induction ds as [|d ds IH]; cbn [app take_digits List.map].
  - destruct rest as [|c rest]; [done|]. simpl in Hrest.
    cbn [take_digits].
    by rewrite (radix_digit_not_decimal _ Hrest).
  - simpl in Hds. apply andb_prop in Hds as [Hd Hds].
    rewrite (radix_digit_decimal _ Hd). by rewrite IH.
Qed.

Lemma strip_prefix_plain s : starts_0x s = false → strip_prefix s = (10, s).
Proof.
  unfold starts_0x, strip_prefix.
  destruct s as [|c0 [|c1 s]]; [done..|]. by intros ->.
Qed.

(** A string that begins with decimal digits, and not with [0x], parses
    to the integer those digits denote, whatever follows them. *)
Lemma parseInt_decimal_prefix ds rest :
  ds ≠ [] → forallb is_decimal ds = true →
  begins_decimal rest = false → starts_0x (ds ++ rest) = false →
  parseInt (ds ++ rest) = Some (decimal_value ds).
Proof.
  intros Hne Hds Hrest H0x.
  pose proof (take_digits_decimal _ _ Hds Hrest) as Htake.
  destruct ds as [|d ds]; [done|]. clear Hne.
  simpl in Hds. apply andb_prop in Hds as [Hd Hds].
  unfold parseInt. simpl app in *. simpl trim_start.
  rewrite (decimal_not_white _ Hd). unfold strip_sign.
  destruct (decimal_not_sign _ Hd) as [-> ->].
  rewrite (strip_prefix_plain _ H0x), Htake. simpl List.map.
  unfold decimal_value. simpl List.map. f_equal.
  by destruct (math_int _ _).
Qed.

Lemma starts_0x_decimal ds :
  forallb is_decimal ds = true → starts_0x ds = false.
Proof.
  destruct ds as [|c0 [|c1 ds]]; [done..|]. simpl.
  intros [_ [H1 _]%andb_prop]%andb_prop.
  unfold is_decimal in H1. apply andb_prop in H1 as [H1 H2].
  apply N.leb_le in H1, H2.
  replace (c1 =? 120)%N with false by (symmetry; apply N.eqb_neq; lia).
  replace (c1 =? 88)%N with false by (symmetry; apply N.eqb_neq; lia).
  by rewrite andb_false_r.
Qed.

Lemma parseInt_decimal ds :
  ds ≠ [] → forallb is_decimal ds = true →
  parseInt ds = Some (decimal_value ds).
Proof.
  intros Hne Hds. rewrite <- (app_nil_r ds) at 1.
  apply parseInt_decimal_prefix; [done..|].
  rewrite app_nil_r. by apply starts_0x_decimal.
Qed.

(** Value of a numeral read least significant digit first. *)
Lemma decimal_value_snoc ds d :
  decimal_value (ds ++ [d]) = decimal_value ds * 10 + (Z.of_N d - 48).
Proof.
  unfold decimal_value, math_int.
  by rewrite List.map_app, fold_left_app.
Qed.

Lemma incr_digits_spec ds :
  forallb is_decimal ds = true →
  forallb is_decimal (incr_digits ds) = true
  ∧ incr_digits ds ≠ []
  ∧ decimal_value (rev (incr_digits ds)) = decimal_value (rev ds) + 1.
Proof.
  induction ds as [|d ds IH]; intros Hds.
  - by vm_compute.
  - cbn [forallb] in Hds. apply andb_prop in Hds as [Hd Hds].
    cbn [incr_digits]. destruct (N.eqb_spec d 57) as [->|Hd57].
    + destruct (IH Hds) as (H1 & H2 & H3). split_and!; [|done|].
      * cbn [forallb]. by rewrite H1.
      * cbn [rev]. rewrite !decimal_value_snoc, H3. lia.
    + unfold is_decimal in Hd. apply andb_prop in Hd as [Hlo Hhi].
      apply N.leb_le in Hlo, Hhi. split_and!; [|done|].
      * cbn [forallb]. rewrite Hds, andb_true_r. unfold is_decimal.
        apply andb_true_intro. split; apply N.leb_le; lia.
      * cbn [rev]. rewrite !decimal_value_snoc. lia.
Qed.

Lemma digits_le_spec n :
  forallb is_decimal (digits_le n) = true
  ∧ decimal_value (rev (digits_le n)) = Z.of_nat n.
Proof.
  induction n as [|n [IH1 IH2]]; [done|].
  cbn [digits_le]. destruct (incr_digits_spec _ IH1) as (H1 & _ & H3).
  split; [done|]. rewrite H3, IH2. lia.
Qed.

(** [parseInt] reads a numeral back. *)
Lemma parseInt_numeral n : parseInt (numeral n) = Some (Z.of_nat n).
Proof.
  destruct n as [|n]; [done|]. unfold numeral.
  destruct (digits_le_spec (S n)) as [H1 H2].
  rewrite <- H2. apply parseInt_decimal.
  - cbn [digits_le].
    destruct (incr_digits_spec _ (proj1 (digits_le_spec n))) as (_ & H & _).
    intros Hrev. apply H. apply (f_equal (@rev N)) in Hrev.
    by rewrite rev_involutive in Hrev.
  - rewrite forallb_forall in H1 |- *. intros x Hx. apply H1.
    by apply in_rev.
Qed.

(** With no decimal digit after the white space and the sign, the
    result is [NaN]. *)
Lemma parseInt_no_digit s :
  begins_decimal (after_sign s) = false → parseInt s = None.
Proof.
  unfold after_sign, parseInt.
  destruct (strip_sign (trim_start s)) as [sign s1]. simpl.
  intros Hs1.
  assert (strip_prefix s1 = (10, s1)) as ->.
  { apply strip_prefix_plain.
    destruct s1 as [|c0 [|c1 s1]]; [done..|]. simpl in *.
    destruct (N.eqb_spec c0 48) as [->|_]; [done | done]. }
  destruct s1 as [|c s1]; [done|]. simpl in Hs1.
  simpl take_digits. by rewrite (radix_digit_not_decimal _ Hs1).
Qed.

End parseInt_facts.

(** ** Case analysis of the handlers that look a Book up by id *)

Section lookup_cases.
Implicit Types (books l : store) (b : Book.t) (p : list N) (n : Z).

Lemma by_id_true p b : by_id p b = true → parseInt p = Some (Book.id b).
Proof.
  unfold by_id. destruct (parseInt p) as [n|]; [|done].
  by intros ->%bool_decide_eq_true.
Qed.

(** Either no Book matches the path, or the store splits at the first
    Book whose id is the number the path parses to. *)
Lemma lookup_cases p books :
  find (by_id p) books = None
  ∨ ∃ n l1 b l2,
      parseInt p = Some n ∧ books = l1 ++ b :: l2
      ∧ Forall (λ x, Book.id x ≠ n) l1 ∧ Book.id b = n.
Proof.
  destruct (find (by_id p) books) as [b|] eqn:Hfind; [right | by left].
  apply find_Some_split in Hfind as (l1 & l2 & -> & Hl1 & Hb).
  pose proof (by_id_true _ _ Hb) as Hp.
  exists (Book.id b), l1, b, l2. split_and!; [done..| |done].
  eapply Forall_impl; [exact Hl1|]. simpl. intros x Hx Heq.
  rewrite (by_id_parsed _ _ _ Hp) in Hx.
  by apply bool_decide_eq_false in Hx.
Qed.

Lemma get_one_none p books :
  find (by_id p) books = None → get_one p books = (not_found, books).
Proof. unfold get_one. by intros ->. Qed.

Lemma put_none p body books :
  find (by_id p) books = None → put p body books = (not_found, books).
Proof. unfold put. by intros ->. Qed.

Lemma delete_one_none p books :
  find (by_id p) books = None → delete_one p books = (not_found, books).
Proof. unfold delete_one. by intros ->. Qed.


(** The merge of [put] applied twice is the merge with the later body
    laid over the earlier one. *)
Lemma updated_compose (b2 b1 : gmap string json) b :
  updated b2 (updated b1 b) = updated (b2 ∪ b1) b.
Proof.
  unfold updated. cbn [Book.id Book.title Book.author Book.finished
                       Book.createdAt].
  rewrite !lookup_union.
  by destruct (b2 !! "title"), (b1 !! "title"), (b2 !! "author"),
    (b1 !! "author"), (b2 !! "finished"), (b1 !! "finished").
Qed.

Lemma updated_no_fields (body : gmap string json) b :
  body !! "title" = None → body !! "author" = None →
  body !! "finished" = None → updated body b = b.
Proof. unfold updated. intros -> -> ->. by destruct b. Qed.

(** An invariant kept by every admitted request is kept by a run. *)
Lemma serve_invariant (Q : request → Prop) (P : store → Prop) :
  (∀ r s, Q r → P s → P (handle r s).2) →
  ∀ rs s, Forall Q rs → P s → P (serve rs s).
Proof.
  intros Hstep rs. induction rs as [|r rs IH]; intros s Hrs Hs; [done|].
  apply Forall_cons in Hrs as [Hr Hrs]. unfold serve. cbn [fold_left].
  apply IH; [done|]. by apply Hstep.
Qed.

End lookup_cases.

(** ** Sanity checks of the built-ins on literals *)

Example parseInt_1abc : parseInt (units "1abc") = Some 1.
Proof. reflexivity. Qed.
Example parseInt_0xA : parseInt (units "0xA") = Some 10.
Proof. reflexivity. Qed.
Example parseInt_plus : parseInt (units "+42") = Some 42.
Proof. reflexivity. Qed.
Example parseInt_minus_px : parseInt (units " -42px") = Some (-42).
Proof. reflexivity. Qed.
Example parseInt_abc : parseInt (units "abc") = None.
Proof. reflexivity. Qed.
Example parseInt_0x_alone : parseInt (units "0x") = None.
Proof. reflexivity. Qed.
Example splice_negative_start : splice (-1) 1 [] [1; 2; 3] = [1; 2].
Proof. reflexivity. Qed.
Example sendStatus_404 : sendStatus 404 = mkResponse 404 (Text "Not Found").
Proof. reflexivity. Qed.
Example sendStatus_204 : sendStatus 204 = mkResponse 204 Empty.
Proof. reflexivity. Qed.
Example after_delete_store : Sample.after_delete = [Sample.book_X 2].
Proof. vm_compute. reflexivity. Qed.

(** ** Properties of the router *)

(** C1: for every store, POST /books answers 201; the [id] of the Book
    in the response is the length of the collection before the insertion
    plus 1, and that Book is appended at the end of the collection. *)
Theorem post_created_id_appended
    (body : gmap string json) (now : Z) (books : store) :
  ∃ book,
    post body now books = (mkResponse 201 (Json book), books ++ [book])
    ∧ Book.id book = Z.of_nat (length books) + 1.
Proof. eexists. split; reflexivity. Qed.

(** C7: the Book created by POST /books, which is also the body of the
    201 response and the last element of the store, has [finished] equal
    to the value supplied in the body, and to [false] when the body has
    no [finished] field. *)
Theorem post_finished_default
    (body : gmap string json) (now : Z) (books : store) :
  ∃ book,
    (post body now books).1 = mkResponse 201 (Json book)
    ∧ last (post body now books).2 = Some book
    ∧ Book.finished book = Some (default (JBool false) (body !! "finished")).
Proof.
  eexists. split_and!; [reflexivity | | ].
  - unfold post, push. simpl. by rewrite last_snoc.
  - simpl. by destruct (body !! "finished").
Qed.

(** C2, as stated, fails: the 404 of a request for an absent id is sent
    with [res.sendStatus(404)], which sends the status message as the
    text of the response, so the body is not empty.  Here the store holds
    one book with id 1 and the requests are for id 2. *)
Lemma absent_id_body_not_empty :
  let books := [Sample.book_X 1] in
  let p := units "2" in
  parseInt p = Some 2
  ∧ (∀ b, b ∈ books → Book.id b ≠ 2)
  ∧ (get_one p books).1 ≠ mkResponse 404 Empty
  ∧ (put p Sample.body_X books).1 ≠ mkResponse 404 Empty
  ∧ (delete_one p books).1 ≠ mkResponse 404 Empty.
Proof.
  simpl. split_and!; [reflexivity | | discriminate..].
  intros b ->%list_elem_of_singleton. discriminate.
Qed.

(** C2, amended: for every integer id in the range in which Numbers
    are exact (at most 2^53 in absolute value) that no Book in the store
    has, GET, PUT and DELETE on that id answer 404 with the text
    [Not Found] as body, and leave the store exactly as it was. *)
Theorem absent_id_404_store_unchanged
    (p : list N) (n : Z) (body : gmap string json) (books : store) :
  parseInt p = Some n →
  exact_number n = true →
  (∀ b, b ∈ books → Book.id b ≠ n) →
  get_one p books = (mkResponse 404 (Text "Not Found"), books)
  ∧ put p body books = (mkResponse 404 (Text "Not Found"), books)
  ∧ delete_one p books = (mkResponse 404 (Text "Not Found"), books).
Proof.
  intros Hp _ Habs.
  assert (find (by_id p) books = None) as Hfind.
  { apply absent_no_match. intros m Hm. rewrite Hp in Hm.
    injection Hm as <-. exact Habs. }
  unfold get_one, put, delete_one. rewrite Hfind. done.
Qed.

Lemma absent_id_404_store_unchanged_witness :
  let books := [Sample.book_X 1; Sample.book_Z 3] in
  get_one (units "2") books = (mkResponse 404 (Text "Not Found"), books)
  ∧ put (units "2") Sample.body_X books
    = (mkResponse 404 (Text "Not Found"), books)
  ∧ delete_one (units "2") books
    = (mkResponse 404 (Text "Not Found"), books).
Proof.
  apply (absent_id_404_store_unchanged (units "2") 2).
  - reflexivity.
  - reflexivity.
  - intros b Hb. apply elem_of_cons in Hb as [->|Hb]; [discriminate|].
    apply elem_of_cons in Hb as [->|Hb]; [discriminate|].
    by apply elem_of_nil in Hb.
Defined.

(** C3: when the store holds a Book with the given id, PUT with a body
    that supplies only [title] answers 204; the first Book with that id
    gets the new title and keeps its [author], [finished], [createdAt]
    and [id], it stays at its position, every other Book is unchanged,
    and it is still the first Book with that id. *)
Theorem put_title_only
    (p : list N) (n : Z) (body : gmap string json) (t : json)
    (books : store) :
  parseInt p = Some n →
  (∃ b, b ∈ books ∧ Book.id b = n) →
  body !! "title" = Some t →
  body !! "author" = None →
  body !! "finished" = None →
  ∃ l1 b l2,
    books = l1 ++ b :: l2
    ∧ Forall (λ x, Book.id x ≠ n) l1
    ∧ Book.id b = n
    ∧ let b' := Book.mk (Book.id b) (Some t) (Book.author b)
                        (Book.finished b) (Book.createdAt b) in
      put p body books = (mkResponse 204 Empty, l1 ++ b' :: l2)
      ∧ find (by_id p) (l1 ++ b' :: l2) = Some b'.
Proof.
  intros Hp Hin Ht Ha Hf.
  destruct (present_split _ _ Hin) as (l1 & b & l2 & -> & Hl1 & Hb).
  exists l1, b, l2. split_and!; [done..|]. simpl. split.
  - rewrite (put_first _ _ _ _ _ _ Hp Hl1 Hb).
    unfold updated. by rewrite Ht, Ha, Hf.
  - destruct (first_match p n l1
      (Book.mk (Book.id b) (Some t) (Book.author b) (Book.finished b)
               (Book.createdAt b)) l2 Hp Hl1 Hb) as [H1 H2].
    by apply find_first.
Qed.

Lemma put_title_only_witness :
  ∃ l1 b l2,
    [Sample.book_X 1; Sample.book_X 2; Sample.book_Z 2] = l1 ++ b :: l2
    ∧ Forall (λ x, Book.id x ≠ 2) l1
    ∧ Book.id b = 2
    ∧ let b' := Book.mk (Book.id b) (Some (JStr "T")) (Book.author b)
                        (Book.finished b) (Book.createdAt b) in
      put (units "2") {["title" := JStr "T"]}
          [Sample.book_X 1; Sample.book_X 2; Sample.book_Z 2]
        = (mkResponse 204 Empty, l1 ++ b' :: l2)
      ∧ find (by_id (units "2")) (l1 ++ b' :: l2) = Some b'.
Proof.
  apply (put_title_only (units "2") 2 {["title" := JStr "T"]} (JStr "T")).
  - reflexivity.
  - exists (Sample.book_X 2). split; [|reflexivity].
    apply list_elem_of_further, list_elem_of_here.
  - reflexivity.
  - reflexivity.
  - reflexivity.
Defined.

(** C9: a DELETE that finds its id removes exactly one Book, the first
    in collection order with that id; the collection is one shorter, all
    other Books keep their order, and a later Book with the same id is
    still in the store. *)
Theorem delete_removes_first_only (p : list N) (n : Z) (books : store) :
  parseInt p = Some n →
  (∃ b, b ∈ books ∧ Book.id b = n) →
  ∃ l1 b l2,
    books = l1 ++ b :: l2
    ∧ Forall (λ x, Book.id x ≠ n) l1
    ∧ Book.id b = n
    ∧ delete_one p books = (mkResponse 204 Empty, l1 ++ l2)
    ∧ (length (delete_one p books).2 + 1 = length books)%nat
    ∧ (∀ d, d ∈ l2 → Book.id d = n → d ∈ (delete_one p books).2).
Proof.
  intros Hp Hin.
  destruct (present_split _ _ Hin) as (l1 & b & l2 & -> & Hl1 & Hb).
  exists l1, b, l2.
  rewrite (delete_one_first _ _ _ _ _ Hp Hl1 Hb).
  split_and!; [done.. | | ].
  - simpl. rewrite !length_app. simpl. lia.
  - intros d Hd _. simpl. apply elem_of_app. by right.
Qed.

Lemma delete_removes_first_only_witness :
  ∃ l1 b l2,
    [Sample.book_X 1; Sample.book_X 2; Sample.book_Z 2] = l1 ++ b :: l2
    ∧ Forall (λ x, Book.id x ≠ 2) l1
    ∧ Book.id b = 2
    ∧ delete_one (units "2")
        [Sample.book_X 1; Sample.book_X 2; Sample.book_Z 2]
      = (mkResponse 204 Empty, l1 ++ l2)
    ∧ (length (delete_one (units "2")
         [Sample.book_X 1; Sample.book_X 2; Sample.book_Z 2]).2 + 1
       = length [Sample.book_X 1; Sample.book_X 2; Sample.book_Z 2])%nat
    ∧ (∀ d, d ∈ l2 → Book.id d = 2 →
         d ∈ (delete_one (units "2")
           [Sample.book_X 1; Sample.book_X 2; Sample.book_Z 2]).2).
Proof.
  apply (delete_removes_first_only (units "2") 2).
  - reflexivity.
  - exists (Sample.book_X 2). split; [|reflexivity].
    apply list_elem_of_further, list_elem_of_here.
Defined.

(** C10: a PUT that finds its id builds the new Book from the Book found
    and from the [title], [author] and [finished] of the body only:
    whatever else the body holds, [id] and [createdAt] fields included,
    the Book at the position of the match has the [id] and the
    [createdAt] of the Book it replaces. *)
Theorem put_keeps_id_createdAt
    (p : list N) (n : Z) (body : gmap string json) (books : store) :
  parseInt p = Some n →
  (∃ b, b ∈ books ∧ Book.id b = n) →
  ∃ l1 b l2 b',
    books = l1 ++ b :: l2
    ∧ Forall (λ x, Book.id x ≠ n) l1
    ∧ Book.id b = n
    ∧ put p body books = (mkResponse 204 Empty, l1 ++ b' :: l2)
    ∧ Book.id b' = Book.id b
    ∧ Book.createdAt b' = Book.createdAt b.
Proof.
  intros Hp Hin.
  destruct (present_split _ _ Hin) as (l1 & b & l2 & -> & Hl1 & Hb).
  exists l1, b, l2, (updated body b).
  by rewrite (put_first _ _ _ _ _ _ Hp Hl1 Hb).
Qed.

Lemma put_keeps_id_createdAt_witness :
  Sample.body_forged !! "id" = Some (JNum 99)
  ∧ Sample.body_forged !! "createdAt" = Some (JStr "1970-01-01")
  ∧ ∃ l1 b l2 b',
      [Sample.book_X 1; Sample.book_X 2] = l1 ++ b :: l2
      ∧ Forall (λ x, Book.id x ≠ 2) l1
      ∧ Book.id b = 2
      ∧ put (units "2") Sample.body_forged
            [Sample.book_X 1; Sample.book_X 2]
        = (mkResponse 204 Empty, l1 ++ b' :: l2)
      ∧ Book.id b' = Book.id b
      ∧ Book.createdAt b' = Book.createdAt b.
Proof.
  split; [reflexivity|]. split; [reflexivity|].
  apply (put_keeps_id_createdAt (units "2") 2).
  - reflexivity.
  - exists (Sample.book_X 2). split; [|reflexivity].
    apply list_elem_of_further, list_elem_of_here.
Defined.

(** From any store: two POSTs, then a DELETE of the id the first POST
    assigned, leave a store in which the next POST hands out the id of
    the Book the second POST created. *)
Lemma reuse_after_two_posts
    (seed : store) (p : list N) (bodyA bodyB bodyC : gmap string json)
    (nowA nowB nowC : Z) :
  parseInt p = Some (Z.of_nat (length seed) + 1) →
  let before := serve [POST bodyA nowA; POST bodyB nowB] seed in
  ∃ s book old,
    delete_one p before = (mkResponse 204 Empty, s)
    ∧ (length s < length before)%nat
    ∧ (post bodyC nowC s).1 = mkResponse 201 (Json book)
    ∧ old ∈ s
    ∧ Book.id old = Book.id book.
Proof.
  intros Hp before.
  assert (∃ bA bB, before = seed ++ [bA; bB]
            ∧ Book.id bA = Z.of_nat (length seed) + 1
            ∧ Book.id bB = Z.of_nat (length seed) + 2)
    as (bA & bB & Hbefore & HidA & HidB).
  { eexists _, _. split.
    - unfold before. cbn [serve fold_left handle]. unfold post, push.
      cbn [snd]. rewrite <- app_assoc. reflexivity.
    - cbn [Book.id]. rewrite length_app. simpl. lia. }
  clearbody before. subst before.
  destruct (present_split (Z.of_nat (length seed) + 1) (seed ++ [bA; bB]))
    as (l1 & b & l2 & Hsplit & Hl1 & Hb).
  { exists bA. split; [|done].
    apply elem_of_app. right. apply list_elem_of_here. }
  assert (length (l1 ++ l2) = S (length seed)) as Hlen.
  { apply (f_equal length) in Hsplit. rewrite !length_app in Hsplit.
    simpl in Hsplit. rewrite length_app. lia. }
  exists (l1 ++ l2), (Book.mk (Z.of_nat (length (l1 ++ l2)) + 1)
    (bodyC !! "title") (bodyC !! "author")
    (match bodyC !! "finished" with
     | Some v => Some v | None => Some (JBool false) end) nowC), bB.
  rewrite Hsplit. rewrite (delete_one_first _ _ _ _ _ Hp Hl1 Hb).
  split_and!; [done | | done | | ].
  - rewrite !length_app. simpl. lia.
  - assert (bB ∈ l1 ++ b :: l2) as Hin.
    { rewrite <- Hsplit. apply elem_of_app. right.
      apply list_elem_of_further, list_elem_of_here. }
    apply elem_of_app in Hin as [Hin|Hin]; apply elem_of_app; [by left|].
    apply elem_of_cons in Hin as [Heq|Hin]; [|by right].
    rewrite <- Heq in Hb. lia.
  - cbn [Book.id]. rewrite HidB, Hlen. lia.
Qed.

(** C4: ids are not unique.  Whatever the store starts from, some
    sequence of requests followed by a successful DELETE leads to a store
    in which the next POST gives the new Book the [id] of a Book that is
    already in the collection. *)
Theorem id_reuse_after_delete (seed : store) :
  ∃ (rs : list request) (p : list N) (s : store)
    (body : gmap string json) (now : Z) (book old : Book.t),
    handle (DELETE p) (serve rs seed) = (mkResponse 204 Empty, s)
    ∧ (length s < length (serve rs seed))%nat
    ∧ (handle (POST body now) s).1 = mkResponse 201 (Json book)
    ∧ old ∈ s
    ∧ Book.id old = Book.id book.
Proof.
  destruct (reuse_after_two_posts seed (numeral (S (length seed)))
    Sample.body_X Sample.body_X Sample.body_Z 1000 1000 2000)
    as (s & book & old & H).
  { rewrite parseInt_numeral. f_equal. lia. }
  exists Sample.two_posts, (numeral (S (length seed))), s,
    Sample.body_Z, 2000, book, old. exact H.
Qed.

(** The scenario of the specification: a seed Book with id 1, a POST, a
    DELETE of id 1, and a POST that is given id 2 again. *)
Example id_reuse_scenario :
  let seed := [Sample.book_X 1] in
  let s := serve [POST Sample.body_X 1000; DELETE (units "1")] seed in
  s = [Sample.book_X 2]
  ∧ (get_one (units "1") s).1 = mkResponse 404 (Text "Not Found")
  ∧ (post Sample.body_Z 2000 s).1 = mkResponse 201 (Json (Sample.book_Z 2)).
Proof. vm_compute. done. Qed.

(** C5, as stated, fails: after two POSTs, a DELETE of id 1 and a third
    POST, the store holds two Books with id 2; DELETE of id 2 answers 204
    and the GET that follows answers 200 with the second of them. *)
Lemma delete_then_get_still_found :
  let books :=
    serve (Sample.two_posts
           ++ [DELETE (units "1"); POST Sample.body_Z 2000]) [] in
  (∃ b, b ∈ books ∧ Book.id b = 2)
  ∧ parseInt (units "2") = Some 2
  ∧ (delete_one (units "2") books).1 = mkResponse 204 Empty
  ∧ (get_one (units "2") (delete_one (units "2") books).2).1
    = mkResponse 200 (Json (Sample.book_Z 2))
  ∧ status (get_one (units "2") (delete_one (units "2") books).2).1 ≠ 404.
Proof.
  vm_compute. split_and!; [|done..].
  eexists. split; [apply list_elem_of_here | done].
Qed.

(** C5, amended: for every store and every id of a Book in it, DELETE
    answers 204 and removes the first Book with that id, and the GET on
    the same id that follows answers 404 exactly when one Book only had
    that id before the DELETE; when several Books had it, that GET
    answers 200 with the next Book of the collection that has the id. *)
Theorem delete_then_get (p : list N) (n : Z) (books : store) :
  parseInt p = Some n →
  (∃ b, b ∈ books ∧ Book.id b = n) →
  (delete_one p books).1 = mkResponse 204 Empty
  ∧ (status (get_one p (delete_one p books).2).1 = 404
     ↔ count_id n books = 1%nat)
  ∧ ∃ l1 b l2,
      books = l1 ++ b :: l2
      ∧ Forall (λ x, Book.id x ≠ n) l1
      ∧ Book.id b = n
      ∧ (delete_one p books).2 = l1 ++ l2
      ∧ ((count_id n books = 1%nat
          ∧ (get_one p (l1 ++ l2)).1 = mkResponse 404 (Text "Not Found"))
         ∨ (∃ m1 b' m2,
              l2 = m1 ++ b' :: m2
              ∧ Forall (λ x, Book.id x ≠ n) m1
              ∧ Book.id b' = n
              ∧ (1 < count_id n books)%nat
              ∧ (get_one p (l1 ++ l2)).1 = mkResponse 200 (Json b'))).
Proof.
  intros Hp Hin.
  destruct (present_split _ _ Hin) as (l1 & b & l2 & -> & Hl1 & Hb).
  rewrite (delete_one_first _ _ _ _ _ Hp Hl1 Hb). cbn [fst snd].
  rewrite (count_id_split _ _ _ _ Hb).
  destruct (lookup_cases p l2)
    as [Hnone|(n' & m1 & b' & m2 & Hp' & -> & Hm1 & Hb')].
  - assert (find (by_id p) (l1 ++ l2) = None) as Hnone'.
    { apply find_None, Forall_app. split; [|by apply find_None].
      by destruct (first_match p n l1 b l2 Hp Hl1 Hb). }
    assert (count_id n (l1 ++ l2) = 0%nat) as Hcount
      by by apply (count_id_zero p).
    pose proof (get_one_none _ _ Hnone') as Hget.
    rewrite Hcount, Hget.
    split; [done|]. split; [by split|].
    exists l1, b, l2. split_and!; [done..|]. left. by rewrite Hget.
  - assert (n' = n) as -> by congruence.
    assert (get_one p (l1 ++ m1 ++ b' :: m2)
            = (mkResponse 200 (Json b'), l1 ++ m1 ++ b' :: m2)) as Hget.
    { rewrite app_assoc. apply (get_one_first p n); [done| |done].
      by apply Forall_app. }
    assert (count_id n (l1 ++ m1 ++ b' :: m2)
            = S (count_id n ((l1 ++ m1) ++ m2))) as Hcount.
    { rewrite app_assoc. by apply count_id_split. }
    rewrite Hcount, Hget. cbn [fst status].
    split; [done|]. split; [split; [discriminate | lia]|].
    exists l1, b, (m1 ++ b' :: m2). split_and!; [done..|]. right.
    exists m1, b', m2. rewrite Hget. split_and!; [done..|lia|done].
Qed.

Lemma delete_then_get_witness :
  let books := [Sample.book_X 1; Sample.book_X 2; Sample.book_Z 2] in
  (delete_one (units "2") books).1 = mkResponse 204 Empty
  ∧ (status (get_one (units "2") (delete_one (units "2") books).2).1 = 404
     ↔ count_id 2 books = 1%nat)
  ∧ ∃ l1 b l2,
      books = l1 ++ b :: l2
      ∧ Forall (λ x, Book.id x ≠ 2) l1
      ∧ Book.id b = 2
      ∧ (delete_one (units "2") books).2 = l1 ++ l2
      ∧ ((count_id 2 books = 1%nat
          ∧ (get_one (units "2") (l1 ++ l2)).1
            = mkResponse 404 (Text "Not Found"))
         ∨ (∃ m1 b' m2,
              l2 = m1 ++ b' :: m2
              ∧ Forall (λ x, Book.id x ≠ 2) m1
              ∧ Book.id b' = 2
              ∧ (1 < count_id 2 books)%nat
              ∧ (get_one (units "2") (l1 ++ l2)).1
                = mkResponse 200 (Json b'))).
Proof.
  apply (delete_then_get (units "2") 2
           [Sample.book_X 1; Sample.book_X 2; Sample.book_Z 2]).
  - reflexivity.
  - exists (Sample.book_X 2). split; [|reflexivity].
    apply list_elem_of_further, list_elem_of_here.
Defined.

(** The two cases of the GET after a DELETE, on stores of three Books:
    the id was held once, or twice. *)
Example delete_then_get_once :
  let books := [Sample.book_X 1; Sample.book_X 2; Sample.book_Z 3] in
  delete_one (units "2") books
    = (mkResponse 204 Empty, [Sample.book_X 1; Sample.book_Z 3])
  ∧ (get_one (units "2") (delete_one (units "2") books).2).1
    = mkResponse 404 (Text "Not Found").
Proof. vm_compute. done. Qed.

Example delete_then_get_twice :
  let books := [Sample.book_X 1; Sample.book_X 2; Sample.book_Z 2] in
  delete_one (units "2") books
    = (mkResponse 204 Empty, [Sample.book_X 1; Sample.book_Z 2])
  ∧ (get_one (units "2") (delete_one (units "2") books).2).1
    = mkResponse 200 (Json (Sample.book_Z 2)).
Proof. vm_compute. done. Qed.

(** C6, as stated, fails: in the store left by two POSTs and a DELETE of
    id 1, a POST is answered with a Book of id 2, and the GET of id 2
    returns the older Book with that id, which has another title, author
    and [createdAt]. *)
Lemma post_then_get_other_book :
  let books := Sample.after_delete in
  let created := post Sample.body_Z 2000 books in
  created.1 = mkResponse 201 (Json (Sample.book_Z 2))
  ∧ parseInt (units "2") = Some (Book.id (Sample.book_Z 2))
  ∧ (get_one (units "2") created.2).1
    = mkResponse 200 (Json (Sample.book_X 2))
  ∧ Sample.book_X 2 ≠ Sample.book_Z 2.
Proof. vm_compute. split_and!; done. Qed.

(** C6, amended: for every store in which no Book has the id
    [length + 1], after POST /books the GET on the [id] of the POST
    response returns the Book of the POST response, equal in all fields. *)
Theorem post_then_get
    (body : gmap string json) (now : Z) (books : store) (p : list N) :
  parseInt p = Some (Z.of_nat (length books) + 1) →
  (∀ b, b ∈ books → Book.id b ≠ Z.of_nat (length books) + 1) →
  ∃ book,
    (post body now books).1 = mkResponse 201 (Json book)
    ∧ parseInt p = Some (Book.id book)
    ∧ (get_one p (post body now books).2).1 = mkResponse 200 (Json book).
Proof.
  intros Hp Hfresh. eexists. split; [reflexivity|]. split; [exact Hp|].
  unfold post, push. cbn [snd].
  erewrite (get_one_first p _ books _ []); [done | exact Hp | | done].
  by apply Forall_forall.
Qed.

Lemma post_then_get_witness :
  ∃ book,
    (post Sample.body_Z 2000 [Sample.book_X 1; Sample.book_X 2]).1
      = mkResponse 201 (Json book)
    ∧ parseInt (units "3") = Some (Book.id book)
    ∧ (get_one (units "3")
         (post Sample.body_Z 2000 [Sample.book_X 1; Sample.book_X 2]).2).1
      = mkResponse 200 (Json book).
Proof.
  apply (post_then_get Sample.body_Z 2000
           [Sample.book_X 1; Sample.book_X 2] (units "3")).
  - reflexivity.
  - intros b Hb. apply elem_of_cons in Hb as [->|Hb]; [discriminate|].
    apply elem_of_cons in Hb as [->|Hb]; [discriminate|].
    by apply elem_of_nil in Hb.
Defined.

(** C8, as stated, fails twice.  The path [0xA] is the digit 0 followed
    by non-digits, yet it is read in radix 16 and matches the Book with
    id 10, where the leading integer 0 matches nothing.  The path [+10]
    begins with no digit, yet it parses to 10 and GET answers 200. *)
Lemma path_id_not_leading_integer :
  let books := [Sample.book_X 10] in
  units "0xA" = units "0" ++ units "xA"
  ∧ forallb is_decimal (units "0") = true
  ∧ forallb (λ c, negb (is_decimal c)) (units "xA") = true
  ∧ (get_one (units "0xA") books).1
    = mkResponse 200 (Json (Sample.book_X 10))
  ∧ (get_one (units "0") books).1 = mkResponse 404 (Text "Not Found")
  ∧ begins_decimal (units "+10") = false
  ∧ parseInt (units "+10") = Some 10
  ∧ (get_one (units "+10") books).1
    = mkResponse 200 (Json (Sample.book_X 10)).
Proof. vm_compute. split_and!; reflexivity. Qed.

(** C8, amended: the id of the path is read by [parseInt].  A path
    parameter made of one or more decimal digits followed by characters
    that do not begin with a decimal digit, that does not start with
    [0x] or [0X], and whose leading integer is in the range in which
    Numbers are exact (at most 2^53), parses to the leading integer, and
    GET, PUT and DELETE behave exactly as if the id were that integer:
    they act on the first Book that has it, answer 404 when no Book has
    it, and do as for any other path that parses to it.  A path
    parameter in which no decimal digit comes first, once leading white
    space and one sign are skipped, parses to no integer, and GET, PUT
    and DELETE answer 404 and leave the store as it was. *)
Theorem path_id_prefix_parsing (books : store) (body : gmap string json) :
  (∀ ds rest,
     ds ≠ [] → forallb is_decimal ds = true →
     begins_decimal rest = false → starts_0x (ds ++ rest) = false →
     exact_number (decimal_value ds) = true →
     parseInt (ds ++ rest) = Some (decimal_value ds)
     ∧ (∀ b, by_id (ds ++ rest) b
             = bool_decide (Book.id b = decimal_value ds))
     ∧ (∀ l1 b l2,
          books = l1 ++ b :: l2 →
          Forall (λ x, Book.id x ≠ decimal_value ds) l1 →
          Book.id b = decimal_value ds →
          get_one (ds ++ rest) books = (mkResponse 200 (Json b), books)
          ∧ put (ds ++ rest) body books
            = (mkResponse 204 Empty, l1 ++ updated body b :: l2)
          ∧ delete_one (ds ++ rest) books
            = (mkResponse 204 Empty, l1 ++ l2))
     ∧ ((∀ b, b ∈ books → Book.id b ≠ decimal_value ds) →
        get_one (ds ++ rest) books
          = (mkResponse 404 (Text "Not Found"), books)
        ∧ put (ds ++ rest) body books
          = (mkResponse 404 (Text "Not Found"), books)
        ∧ delete_one (ds ++ rest) books
          = (mkResponse 404 (Text "Not Found"), books))
     ∧ (∀ q,
          parseInt q = Some (decimal_value ds) →
          get_one (ds ++ rest) books = get_one q books
          ∧ put (ds ++ rest) body books = put q body books
          ∧ delete_one (ds ++ rest) books = delete_one q books))
  ∧ (∀ p,
       begins_decimal (after_sign p) = false →
       parseInt p = None
       ∧ get_one p books = (mkResponse 404 (Text "Not Found"), books)
       ∧ put p body books = (mkResponse 404 (Text "Not Found"), books)
       ∧ delete_one p books = (mkResponse 404 (Text "Not Found"), books)).
Proof.
  split.
  - intros ds rest Hne Hds Hrest H0x _.
    pose proof (parseInt_decimal_prefix _ _ Hne Hds Hrest H0x) as Hp.
    split; [exact Hp|]. split; [|split; [|split]].
    + intros b. by apply by_id_parsed.
    + intros l1 b l2 -> Hl1 Hb.
      by rewrite (get_one_first _ _ _ _ _ Hp Hl1 Hb),
        (put_first _ _ _ _ _ _ Hp Hl1 Hb),
        (delete_one_first _ _ _ _ _ Hp Hl1 Hb).
    + intros Habs.
      assert (find (by_id (ds ++ rest)) books = None) as Hfind.
      { apply absent_no_match. intros m Hm. rewrite Hp in Hm.
        injection Hm as <-. exact Habs. }
      by rewrite (get_one_none _ _ Hfind), (put_none _ _ _ Hfind),
        (delete_one_none _ _ Hfind).
    + intros q Hq.
      assert (by_id (ds ++ rest) = by_id q) as Heq.
      { apply by_id_ext. by rewrite Hp, Hq. }
      unfold get_one, put, delete_one. by rewrite Heq.
  - intros p Hp. apply parseInt_no_digit in Hp. split; [exact Hp|].
    assert (find (by_id p) books = None) as Hfind.
    { apply absent_no_match. intros n Hn. congruence. }
    unfold get_one, put, delete_one. by rewrite Hfind.
Qed.

Lemma path_id_prefix_parsing_witness :
  let books := [Sample.book_X 1; Sample.book_Z 2] in
  (parseInt (units "2abc") = Some 2
   ∧ get_one (units "2abc") books
     = (mkResponse 200 (Json (Sample.book_Z 2)), books)
   ∧ put (units "2abc") Sample.body_X books
     = (mkResponse 204 Empty,
        [Sample.book_X 1; updated Sample.body_X (Sample.book_Z 2)])
   ∧ delete_one (units "2abc") books
     = (mkResponse 204 Empty, [Sample.book_X 1]))
  ∧ (parseInt (units "abc") = None
     ∧ get_one (units "abc") books
       = (mkResponse 404 (Text "Not Found"), books)
     ∧ put (units "abc") Sample.body_Z books
       = (mkResponse 404 (Text "Not Found"), books)
     ∧ delete_one (units "abc") books
       = (mkResponse 404 (Text "Not Found"), books)).
Proof.
  intros books.
  destruct (path_id_prefix_parsing books Sample.body_X) as [Hdigits _].
  destruct (path_id_prefix_parsing books Sample.body_Z) as [_ Hnone].
  split.
  - destruct (Hdigits (units "2") (units "abc"))
      as (Hparse & _ & Hfound & _); [discriminate | reflexivity..|].
    split; [exact Hparse|].
    apply (Hfound [Sample.book_X 1] (Sample.book_Z 2) []);
      [reflexivity | | reflexivity].
    apply Forall_singleton. discriminate.
  - apply (Hnone (units "abc")). reflexivity.
Defined.

(** ** Further properties of the router *)

(** X1: the answers of the router.  The listing answers 200 with the
    whole store; a POST answers 201 with a Book; a GET by id answers 200
    with a Book of the store or 404; a PUT and a DELETE answer 204 with
    no body or 404; every 404 carries the text [Not Found]. *)
Theorem response_contract (r : request) (books : store) :
  match r with
  | GET_all => (handle r books).1 = mkResponse 200 (JsonArray books)
  | GET p =>
      (∃ b, b ∈ books ∧ (handle r books).1 = mkResponse 200 (Json b))
      ∨ (handle r books).1 = not_found
  | POST body now => ∃ b, (handle r books).1 = mkResponse 201 (Json b)
  | PUT _ _ | DELETE _ =>
      (handle r books).1 = mkResponse 204 Empty
      ∨ (handle r books).1 = not_found
  end.
Proof.
  destruct r as [|p|body now|p body|p]; cbn [handle].
  - done.
  - destruct (lookup_cases p books)
      as [Hnone|(n & l1 & b & l2 & Hp & -> & Hl1 & Hb)].
    + right. by rewrite get_one_none.
    + left. exists b. rewrite (get_one_first _ _ _ _ _ Hp Hl1 Hb).
      split; [|done]. apply elem_of_app. right. apply list_elem_of_here.
  - by eexists.
  - destruct (lookup_cases p books)
      as [Hnone|(n & l1 & b & l2 & Hp & -> & Hl1 & Hb)].
    + right. by rewrite put_none.
    + left. by rewrite (put_first _ _ _ _ _ _ Hp Hl1 Hb).
  - destruct (lookup_cases p books)
      as [Hnone|(n & l1 & b & l2 & Hp & -> & Hl1 & Hb)].
    + right. by rewrite delete_one_none.
    + left. by rewrite (delete_one_first _ _ _ _ _ Hp Hl1 Hb).
Qed.

(** X2: a request answered 200 or 404 leaves the store exactly as it
    was: reads and failed lookups never write. *)
Theorem store_unchanged_unless_success (r : request) (books : store) :
  status (handle r books).1 = 200 ∨ status (handle r books).1 = 404 →
  (handle r books).2 = books.
Proof.
  destruct r as [|p|body now|p body|p]; cbn [handle].
  - done.
  - intros _. unfold get_one. by destruct (find _ _).
  - simpl. intros [?|?]; discriminate.
  - destruct (lookup_cases p books)
      as [Hnone|(n & l1 & b & l2 & Hp & -> & Hl1 & Hb)].
    + by rewrite put_none.
    + rewrite (put_first _ _ _ _ _ _ Hp Hl1 Hb). simpl.
      intros [?|?]; discriminate.
  - destruct (lookup_cases p books)
      as [Hnone|(n & l1 & b & l2 & Hp & -> & Hl1 & Hb)].
    + by rewrite delete_one_none.
    + rewrite (delete_one_first _ _ _ _ _ Hp Hl1 Hb). simpl.
      intros [?|?]; discriminate.
Qed.

Lemma store_unchanged_unless_success_witness :
  status (handle (PUT (units "7") Sample.body_Z) [Sample.book_X 1]).1 = 404
  ∧ (handle (PUT (units "7") Sample.body_Z) [Sample.book_X 1]).2
    = [Sample.book_X 1].
Proof.
  split; [reflexivity|].
  apply (store_unchanged_unless_success
           (PUT (units "7") Sample.body_Z) [Sample.book_X 1]).
  right. reflexivity.
Defined.

(** X3: how each request moves the length of the collection: a POST
    adds one, a DELETE answered 204 takes one away, and nothing else
    changes it. *)
Theorem length_effect (r : request) (books : store) :
  Z.of_nat (length (handle r books).2)
  = Z.of_nat (length books)
    + match r with
      | POST _ _ => 1
      | DELETE _ =>
          if bool_decide (status (handle r books).1 = 204) then -1 else 0
      | _ => 0
      end.
Proof.
  destruct r as [|p|body now|p body|p]; cbn [handle].
  - simpl. lia.
  - unfold get_one. destruct (find _ _); simpl; lia.
  - unfold post, push. cbn [snd]. rewrite length_app. simpl. lia.
  - destruct (lookup_cases p books)
      as [Hnone|(n & l1 & b & l2 & Hp & -> & Hl1 & Hb)].
    + rewrite put_none by done. simpl. lia.
    + rewrite (put_first _ _ _ _ _ _ Hp Hl1 Hb). cbn [snd].
      rewrite !length_app. simpl. lia.
  - destruct (lookup_cases p books)
      as [Hnone|(n & l1 & b & l2 & Hp & -> & Hl1 & Hb)].
    + rewrite delete_one_none by done. simpl. lia.
    + rewrite (delete_one_first _ _ _ _ _ Hp Hl1 Hb). cbn [fst snd status].
      rewrite bool_decide_eq_true_2 by done.
      rewrite !length_app. simpl. lia.
Qed.




(** X6: a PUT, found or not and whatever its body, keeps the length of
    the collection, the ids in their order and the creation times in
    their order. *)
Theorem put_preserves_ids
    (p : list N) (body : gmap string json) (books : store) :
  length (put p body books).2 = length books
  ∧ Book.id <$> (put p body books).2 = Book.id <$> books
  ∧ Book.createdAt <$> (put p body books).2 = Book.createdAt <$> books.
Proof.
  destruct (lookup_cases p books)
    as [Hnone|(n & l1 & b & l2 & Hp & -> & Hl1 & Hb)].
  - by rewrite put_none.
  - rewrite (put_first _ _ _ _ _ _ Hp Hl1 Hb). cbn [snd].
    rewrite !length_app, !fmap_app, !fmap_cons. done.
Qed.

(** X7: a PUT whose body has none of [title], [author] and [finished]
    changes nothing in the store, whatever else the body holds. *)
Theorem put_without_fields
    (p : list N) (body : gmap string json) (books : store) :
  body !! "title" = None →
  body !! "author" = None →
  body !! "finished" = None →
  (put p body books).2 = books.
Proof.
  intros Ht Ha Hf.
  destruct (lookup_cases p books)
    as [Hnone|(n & l1 & b & l2 & Hp & -> & Hl1 & Hb)].
  - by rewrite put_none.
  - rewrite (put_first _ _ _ _ _ _ Hp Hl1 Hb). cbn [snd].
    by rewrite updated_no_fields.
Qed.

Lemma put_without_fields_witness :
  (put (units "2") {["id" := JNum 5]}
       [Sample.book_X 1; Sample.book_X 2]).1 = mkResponse 204 Empty
  ∧ (put (units "2") {["id" := JNum 5]}
         [Sample.book_X 1; Sample.book_X 2]).2
    = [Sample.book_X 1; Sample.book_X 2].
Proof.
  split; [reflexivity|].
  apply (put_without_fields (units "2") {["id" := JNum 5]});
    reflexivity.
Defined.

(** X8: update then read.  When GET on a path returns a Book, the GET
    on the same path after a PUT returns that Book with the [title],
    [author] and [finished] of the body laid over its own, and with its
    [id] and [createdAt]. *)
Theorem put_then_get
    (p : list N) (body : gmap string json) (books : store) (b : Book.t) :
  (get_one p books).1 = mkResponse 200 (Json b) →
  (put p body books).1 = mkResponse 204 Empty
  ∧ (get_one p (put p body books).2).1
    = mkResponse 200 (Json (updated body b)).
Proof.
  destruct (lookup_cases p books)
    as [Hnone|(n & l1 & b' & l2 & Hp & -> & Hl1 & Hb)].
  - by rewrite get_one_none.
  - rewrite (get_one_first _ _ _ _ _ Hp Hl1 Hb). cbn [fst].
    intros [= <-]. rewrite (put_first _ _ _ _ _ _ Hp Hl1 Hb).
    split; [done|]. cbn [snd].
    by rewrite (get_one_first p n l1 (updated body b') l2 Hp Hl1 Hb).
Qed.

Lemma put_then_get_witness :
  (put (units "2") Sample.body_Z [Sample.book_X 1; Sample.book_X 2]).1
    = mkResponse 204 Empty
  ∧ (get_one (units "2")
       (put (units "2") Sample.body_Z
            [Sample.book_X 1; Sample.book_X 2]).2).1
    = mkResponse 200 (Json (updated Sample.body_Z (Sample.book_X 2))).
Proof.
  apply (put_then_get (units "2") Sample.body_Z
           [Sample.book_X 1; Sample.book_X 2] (Sample.book_X 2)).
  reflexivity.
Defined.

(** X9: two PUTs on the same path, one after the other, answer and
    leave the store as the single PUT whose body is the second body laid
    over the first. *)
Theorem put_put_merge
    (p : list N) (body1 body2 : gmap string json) (books : store) :
  put p body2 (put p body1 books).2 = put p (body2 ∪ body1) books.
Proof.
  destruct (lookup_cases p books)
    as [Hnone|(n & l1 & b & l2 & Hp & -> & Hl1 & Hb)].
  - rewrite (put_none p body1), (put_none p (body2 ∪ body1)) by done.
    cbn [snd]. by rewrite put_none.
  - rewrite !(put_first _ _ _ _ _ _ Hp Hl1 Hb). cbn [snd].
    rewrite (put_first p n body2 l1 (updated body1 b) l2 Hp Hl1 Hb).
    by rewrite updated_compose.
Qed.

(** X10: PUT is idempotent: the same PUT sent twice answers the second
    time as the first and leaves the store the first one left. *)
Theorem put_idempotent
    (p : list N) (body : gmap string json) (books : store) :
  put p body (put p body books).2 = put p body books.
Proof.
  destruct (lookup_cases p books)
    as [Hnone|(n & l1 & b & l2 & Hp & -> & Hl1 & Hb)].
  - rewrite (put_none p body books) by done.
    cbn [snd]. by rewrite put_none.
  - rewrite !(put_first _ _ _ _ _ _ Hp Hl1 Hb). cbn [snd].
    rewrite (put_first p n body l1 (updated body b) l2 Hp Hl1 Hb).
    by rewrite updated_compose, (idemp_L (∪)).
Qed.


(** X12: create then delete.  When no Book of the store has the id
    [length + 1], a POST followed by the DELETE of the id it returned
    answers 204 and gives back the store as it was before the POST. *)
Theorem post_then_delete
    (body : gmap string json) (now : Z) (books : store) (p : list N) :
  parseInt p = Some (Z.of_nat (length books) + 1) →
  (∀ b, b ∈ books → Book.id b ≠ Z.of_nat (length books) + 1) →
  delete_one p (post body now books).2 = (mkResponse 204 Empty, books).
Proof.
  intros Hp Hfresh. unfold post, push. cbn [snd].
  erewrite (delete_one_first p _ books _ []); [|exact Hp| |done].
  - by rewrite app_nil_r.
  - by apply Forall_forall.
Qed.

Lemma post_then_delete_witness :
  delete_one (units "3")
    (post Sample.body_Z 2000 [Sample.book_X 1; Sample.book_X 2]).2
  = (mkResponse 204 Empty, [Sample.book_X 1; Sample.book_X 2]).
Proof.
  apply (post_then_delete Sample.body_Z 2000
           [Sample.book_X 1; Sample.book_X 2] (units "3")).
  - reflexivity.
  - intros b Hb. apply elem_of_cons in Hb as [->|Hb]; [discriminate|].
    apply elem_of_cons in Hb as [->|Hb]; [discriminate|].
    by apply elem_of_nil in Hb.
Defined.

(** ** Invariants of the store along a run of requests *)

Section run_invariants.
Implicit Types (books l : store) (b : Book.t) (p : list N) (n : Z).

Lemma put_ids p body books :
  Book.id <$> (put p body books).2 = Book.id <$> books.
Proof.
  destruct (lookup_cases p books)
    as [Hnone|(n & l1 & b & l2 & Hp & -> & Hl1 & Hb)].
  - by rewrite put_none.
  - rewrite (put_first _ _ _ _ _ _ Hp Hl1 Hb). cbn [snd].
    by rewrite !fmap_app, !fmap_cons.
Qed.

Lemma get_one_store p books : (get_one p books).2 = books.
Proof. unfold get_one. by destruct (find _ _). Qed.

Lemma sequential_ids_fmap books :
  sequential_ids books
  ↔ Book.id <$> books = seqZ 1 (Z.of_nat (length (Book.id <$> books))).
Proof. unfold sequential_ids. by rewrite length_fmap. Qed.

Lemma sequential_ids_step (r : request) books :
  is_DELETE r = false →
  sequential_ids books → sequential_ids (handle r books).2.
Proof.
  intros Hr Hs. destruct r as [|p|body now|p body|p]; cbn [handle].
  - done.
  - by rewrite get_one_store.
  - unfold post, push, sequential_ids. cbn [snd].
    rewrite fmap_app, length_app. cbn [length fmap list_fmap Book.id].
    rewrite Nat.add_1_r, seqZ_S, Hs. f_equal. f_equal. lia.
  - apply sequential_ids_fmap. rewrite put_ids.
    by apply sequential_ids_fmap.
  - discriminate.
Qed.

Lemma ids_above_position_fmap books :
  ids_above_position books
  ↔ ∀ (i : nat) n, (Book.id <$> books) !! i = Some n → Z.of_nat i + 1 ≤ n.
Proof.
  unfold ids_above_position. split.
  - intros H i n Hi. rewrite list_lookup_fmap in Hi.
    destruct (books !! i) as [b|] eqn:Hb; [|done].
    injection Hi as <-. by apply H.
  - intros H i b Hb. apply H. by rewrite list_lookup_fmap, Hb.
Qed.

Lemma ids_above_position_step (r : request) books :
  ids_above_position books → ids_above_position (handle r books).2.
Proof.
  intros Hs. destruct r as [|p|body now|p body|p]; cbn [handle].
  - done.
  - by rewrite get_one_store.
  - unfold post, push. cbn [snd]. intros i x Hi.
    apply lookup_app_Some in Hi as [Hi|[Hge Hi]]; [by apply Hs|].
    destruct (i - length books)%nat as [|k] eqn:Hk; [|done].
    injection Hi as <-. cbn [Book.id]. lia.
  - apply ids_above_position_fmap. rewrite put_ids.
    by apply ids_above_position_fmap.
  - destruct (lookup_cases p books)
      as [Hnone|(n & l1 & b & l2 & Hp & -> & Hl1 & Hb)].
    + by rewrite delete_one_none.
    + rewrite (delete_one_first _ _ _ _ _ Hp Hl1 Hb). cbn [snd].
      intros i x Hi.
      apply lookup_app_Some in Hi as [Hi|[Hge Hi]].
      * apply Hs. apply lookup_app_Some. by left.
      * assert ((l1 ++ b :: l2) !! S i = Some x) as Hi'.
        { apply lookup_app_Some. right. split; [lia|].
          replace (S i - length l1)%nat with (S (i - length l1)) by lia.
          done. }
        apply Hs in Hi'. lia.
Qed.

Lemma finished_defined_step (r : request) books :
  finished_defined books → finished_defined (handle r books).2.
Proof.
  unfold finished_defined.
  intros Hs. destruct r as [|p|body now|p body|p]; cbn [handle].
  - done.
  - by rewrite get_one_store.
  - unfold post, push. cbn [snd]. apply Forall_app. split; [done|].
    apply Forall_singleton. cbn [Book.finished].
    by destruct (body !! "finished").
  - destruct (lookup_cases p books)
      as [Hnone|(n & l1 & b & l2 & Hp & -> & Hl1 & Hb)].
    + by rewrite put_none.
    + rewrite (put_first _ _ _ _ _ _ Hp Hl1 Hb). cbn [snd].
      apply Forall_app in Hs as [H1 [Hb' H2]%Forall_cons].
      apply Forall_app. split; [done|]. apply Forall_cons. split; [|done].
      unfold updated. cbn [Book.finished].
      by destruct (body !! "finished").
  - destruct (lookup_cases p books)
      as [Hnone|(n & l1 & b & l2 & Hp & -> & Hl1 & Hb)].
    + by rewrite delete_one_none.
    + rewrite (delete_one_first _ _ _ _ _ Hp Hl1 Hb). cbn [snd].
      apply Forall_app in Hs as [H1 [_ H2]%Forall_cons].
      by apply Forall_app.
Qed.

Lemma trim_start_white (ws s : list N) :
  forallb is_white ws = true → trim_start (ws ++ s) = trim_start s.
Proof.
  induction ws as [|c ws IH]; [done|]. cbn [forallb app trim_start].
  intros [-> Hws]%andb_prop. by apply IH.
Qed.

End run_invariants.

(** X13: as long as no DELETE is sent, a store whose ids run 1, 2, ...,
    length keeps them so: the ids stay pairwise distinct.  It is the
    DELETE alone that opens the way to a repeated id. *)
Theorem ids_sequential_without_delete (rs : list request) (books : store) :
  sequential_ids books →
  Forall (λ r, is_DELETE r = false) rs →
  sequential_ids (serve rs books) ∧ NoDup (Book.id <$> serve rs books).
Proof.
  intros Hs Hrs.
  assert (sequential_ids (serve rs books)) as Hseq.
  { apply (serve_invariant (λ r, is_DELETE r = false) sequential_ids);
      [|done..]. intros r s. apply sequential_ids_step. }
  split; [done|]. rewrite Hseq. apply NoDup_seqZ.
Qed.

Lemma ids_sequential_without_delete_witness :
  let rs := [POST Sample.body_X 1000; PUT (units "1") Sample.body_Z;
             POST Sample.body_Z 2000; GET (units "2")] in
  sequential_ids (serve rs []) ∧ NoDup (Book.id <$> serve rs []).
Proof.
  apply (ids_sequential_without_delete
           [POST Sample.body_X 1000; PUT (units "1") Sample.body_Z;
            POST Sample.body_Z 2000; GET (units "2")] []).
  - reflexivity.
  - repeat constructor.
Defined.

(** X14: in a store built by requests from the empty store, or from any
    store that has the property, the Book at position i (counted from 0)
    has an id of at least i + 1: a Book is created with the id of its
    position and only ever moves towards the front. *)
Theorem ids_stay_above_position (rs : list request) (books : store) :
  ids_above_position books → ids_above_position (serve rs books).
Proof.
  intros Hs.
  apply (serve_invariant (λ _, True) ids_above_position); [|by apply Forall_true|done].
  intros r s _. apply ids_above_position_step.
Qed.

Lemma ids_stay_above_position_witness :
  ids_above_position
    (serve (Sample.two_posts
            ++ [DELETE (units "1"); POST Sample.body_Z 2000]) []).
Proof.
  apply (ids_stay_above_position
           (Sample.two_posts
            ++ [DELETE (units "1"); POST Sample.body_Z 2000]) []).
  intros i b Hi. destruct i; discriminate Hi.
Defined.

(** X15: no request makes [finished] undefined: when every Book of the
    store has a [finished], so has every Book after any run of requests,
    the Books created by POST included. *)
Theorem finished_stays_defined (rs : list request) (books : store) :
  finished_defined books → finished_defined (serve rs books).
Proof.
  intros Hs.
  apply (serve_invariant (λ _, True) finished_defined); [|by apply Forall_true|done].
  intros r s _. apply finished_defined_step.
Qed.

Lemma finished_stays_defined_witness :
  finished_defined
    (serve [POST ∅ 1000; PUT (units "1") {["title" := JStr "T"]}] []).
Proof.
  apply (finished_stays_defined
           [POST ∅ 1000; PUT (units "1") {["title" := JStr "T"]}] []).
  constructor.
Defined.

(** X16: white space in front of the id of the path is ignored: GET,
    PUT and DELETE behave on the padded path as on the path itself. *)
Theorem leading_white_space_ignored
    (ws p : list N) (body : gmap string json) (books : store) :
  forallb is_white ws = true →
  get_one (ws ++ p) books = get_one p books
  ∧ put (ws ++ p) body books = put p body books
  ∧ delete_one (ws ++ p) books = delete_one p books.
Proof.
  intros Hws.
  assert (by_id (ws ++ p) = by_id p) as Heq.
  { apply by_id_ext. unfold parseInt. by rewrite trim_start_white. }
  unfold get_one, put, delete_one. by rewrite Heq.
Qed.

Lemma leading_white_space_ignored_witness :
  get_one (units "  2") [Sample.book_X 1; Sample.book_X 2]
    = get_one (units "2") [Sample.book_X 1; Sample.book_X 2]
  ∧ put (units "  2") Sample.body_Z [Sample.book_X 1; Sample.book_X 2]
    = put (units "2") Sample.body_Z [Sample.book_X 1; Sample.book_X 2]
  ∧ delete_one (units "  2") [Sample.book_X 1; Sample.book_X 2]
    = delete_one (units "2") [Sample.book_X 1; Sample.book_X 2].
Proof.
  apply (leading_white_space_ignored (units "  ") (units "2")).
  reflexivity.
Defined.

(** X17: each DELETE removes one Book of the id at most: the number of
    Books with the id of the path goes down by one, or stays 0, so [k]
    Books sharing an id take [k] DELETEs to be gone. *)
Theorem delete_counts_down (p : list N) (n : Z) (books : store) :
  parseInt p = Some n →
  count_id n (delete_one p books).2 = pred (count_id n books).
Proof.
  intros Hp.
  destruct (lookup_cases p books)
    as [Hnone|(n' & l1 & b & l2 & Hp' & -> & Hl1 & Hb)].
  - rewrite delete_one_none by done. cbn [snd].
    apply (count_id_zero p n books Hp) in Hnone. by rewrite Hnone.
  - assert (n' = n) as -> by congruence.
    rewrite (delete_one_first _ _ _ _ _ Hp Hl1 Hb). cbn [snd].
    by rewrite (count_id_split _ _ _ _ Hb).
Qed.

Lemma delete_counts_down_witness :
  count_id 2
    (delete_one (units "2")
       [Sample.book_X 1; Sample.book_X 2; Sample.book_Z 2]).2
  = pred (count_id 2 [Sample.book_X 1; Sample.book_X 2; Sample.book_Z 2]).
Proof.
  apply (delete_counts_down (units "2") 2). reflexivity.
Defined.

(** X18: ids start at 1.  In a store built by requests from the empty
    store, or from any store whose ids are at least their positions, a
    path that parses to 0 or to a negative number finds nothing: GET, PUT
    and DELETE answer 404 and leave the store as it was. *)
Theorem nonpositive_id_not_found
    (rs : list request) (seed : store) (p : list N) (n : Z)
    (body : gmap string json) :
  ids_above_position seed →
  parseInt p = Some n →
  n ≤ 0 →
  let books := serve rs seed in
  get_one p books = (not_found, books)
  ∧ put p body books = (not_found, books)
  ∧ delete_one p books = (not_found, books).
Proof.
  intros Hseed Hp Hn books.
  assert (ids_above_position books) as Hinv.
  { apply (serve_invariant (λ _, True) ids_above_position);
      [|by apply Forall_true|done].
    intros r s _. apply ids_above_position_step. }
  assert (find (by_id p) books = None) as Hnone.
  { apply absent_no_match. intros m Hm b Hb Hid.
    assert (m = n) as -> by congruence.
    apply list_elem_of_lookup in Hb as [i Hi].
    apply Hinv in Hi. lia. }
  by rewrite get_one_none, put_none, delete_one_none.
Qed.

Lemma nonpositive_id_not_found_witness :
  let books := serve Sample.two_posts [] in
  get_one (units "-1") books = (not_found, books)
  ∧ put (units "-1") Sample.body_Z books = (not_found, books)
  ∧ delete_one (units "-1") books = (not_found, books).
Proof.
  apply (nonpositive_id_not_found Sample.two_posts [] (units "-1") (-1)).
  - intros i b Hi. destruct i; discriminate Hi.
  - reflexivity.
  - lia.
Defined.
